(** * example.py: the shape smoke test of the autoencoder repository

    The script draws a random batch with [torch.randn], builds an
    [Autoencoder], runs it on the batch and prints the two shapes.  It is
    embedded as a program over the operations a Python script can ask of
    its runtime; a handler gives those operations their meaning in a
    world made of the tensor store, torch's generator, standard output
    and the operating system.  The code of [Autoencoder] is not part of
    example.py: it enters the handler as a parameter. *)

From stdpp Require Import gmap strings list fin_maps pretty.
From Stdlib Require Import ZArith Ascii.

Local Open Scope string_scope.

(** ** Operations of the runtime *)

(** Object references.  [dummy] and [out] are references to tensors,
    [model] is a reference to a class instance. *)
Definition loc := positive.
Definition handle := positive.

(** The two random factories of torch: [torch.rand] samples the uniform
    distribution on [0, 1), [torch.randn] the normal distribution with
    mean 0 and variance 1. *)
Inductive law := Uniform01 | StdNormal.

Inductive op : Type :=
| TorchRand (dims : list nat)                  (* torch.rand(dims...)  *)
| TorchRandn (dims : list nat)                 (* torch.randn(dims...) *)
| New (cls : string) (args : list loc)         (* cls(args...)          *)
| Call (f : handle) (args : list loc)          (* f(args...)            *)
| Shape (t : loc)                              (* t.shape               *)
| Print (args : list string)                   (* print(args...)        *)
| Argv                                         (* sys.argv              *)
| Getenv (name : string)                       (* os.environ.get(name)  *)
| ReadFile (path : string)                     (* open(path).read()     *)
| WriteFile (path : string) (content : string) (* open(path, w).write   *)
| Send (msg : string).                         (* socket.send(msg)      *)

(** What each operation answers when it returns. *)
Definition ans (o : op) : Type :=
  match o with
  | TorchRand _ | TorchRandn _ => loc
  | New _ _ => handle
  | Call _ _ => loc
  | Shape _ => list nat
  | Print _ => unit
  | Argv => list string
  | Getenv _ => option string
  | ReadFile _ => string
  | WriteFile _ _ => unit
  | Send _ => unit
  end.

(** Which part of the world an operation touches. *)
Inductive effect :=
| Generator   (* torch's default generator and a new tensor *)
| Foreign     (* code of another module runs *)
| Inspect     (* reads an attribute of an object *)
| Stdout
| CommandLine
| Environment
| FileRead
| FileWrite
| Network.

Definition effect_of (o : op) : effect :=
  match o with
  | TorchRand _ | TorchRandn _ => Generator
  | New _ _ | Call _ _ => Foreign
  | Shape _ => Inspect
  | Print _ => Stdout
  | Argv => CommandLine
  | Getenv _ => Environment
  | ReadFile _ => FileRead
  | WriteFile _ _ => FileWrite
  | Send _ => Network
  end.

Definition sampling_law (o : op) : option law :=
  match o with
  | TorchRand _ => Some Uniform01
  | TorchRandn _ => Some StdNormal
  | _ => None
  end.

Definition is_print (o : op) : bool :=
  match o with Print _ => true | _ => false end.

Definition is_foreign (o : op) : bool :=
  match o with New _ _ | Call _ _ => true | _ => false end.

(** ** Programs *)

(** A script is a tree: it either ends with a value or asks for one
    operation and goes on with the answer. *)
Inductive Py (A : Type) : Type :=
| Ret (a : A)
| Do (o : op) (k : ans o → Py A).
Arguments Ret {A} a.
Arguments Do {A} o k.

Fixpoint bind {A B} (p : Py A) (f : A → Py B) : Py B :=
  match p with
  | Ret a => f a
  | Do o k => Do o (λ x, bind (k x) f)
  end.

#[global] Instance Py_ret : MRet Py := @Ret.
#[global] Instance Py_bind : MBind Py := λ A B f p, bind p f.

Definition perform (o : op) : Py (ans o) := Do o Ret.

Module torch.
Definition randn (dims : list nat) : Py loc := perform (TorchRandn dims).
Definition rand (dims : list nat) : Py loc := perform (TorchRand dims).

(** [str] of a [torch.Size], as [print] shows it. *)
Definition str_Size (s : list nat) : string :=
  "torch.Size([" +:+ String.concat ", " (pretty <$> s) +:+ "])".
End torch.

Definition new (cls : string) (args : list loc) : Py handle :=
  perform (New cls args).
Definition call (f : handle) (args : list loc) : Py loc :=
  perform (Call f args).
Definition shape_of (t : loc) : Py (list nat) := perform (Shape t).
Definition print (args : list string) : Py unit := perform (Print args).

(** ** The script *)

(** [[
      import torch
      from autoencoder import Autoencoder

      dummy = torch.randn(2, 3, 150, 225)
      model = Autoencoder()
      out = model(dummy)
      print("input  shape :", dummy.shape)
      print("output shape:", out.shape)
    ]]
    The two imports bind the names [torch] and [Autoencoder]; what they
    stand for is the environment of the handler below.  The arguments of
    a [print] are evaluated before it is called, so each shape is read
    just before its line is written. *)
Definition example : Py unit :=
  dummy ← torch.randn [2; 3; 150; 225];
  model ← new "Autoencoder" [];
  out ← call model [dummy];
  s_in ← shape_of dummy;
  _ ← print ["input  shape :"; torch.str_Size s_in];
  s_out ← shape_of out;
  print ["output shape:"; torch.str_Size s_out].

(** ** Worlds *)

Record pyerror := PyError { exc_type : string; exc_msg : string }.

Inductive result (A : Type) : Type :=
| Ok (a : A)
| Raise (e : pyerror).
Arguments Ok {A} a.
Arguments Raise {A} e.

Record OS := {
  argv : list string;
  environ : gmap string string;
  files : gmap string string;
  sent : list string
}.

Section World.
Context {scalar gen : Type}.

Record Tensor := { shape : list nat; data : list scalar }.

Record World := {
  heap : gmap loc Tensor;   (* tensors, by reference *)
  rng : gen;                (* torch's default generator *)
  stdout : list string;     (* lines written so far *)
  os : OS
}.

(** Code that lives outside example.py.  [sample] is torch's sampler;
    [construct] and [invoke] are what the imported class does when it
    is instantiated and when an instance is called.  Foreign code sees
    the whole world and may raise. *)
Record Env := {
  sample : law → gen → scalar * gen;
  construct : string → list loc → World → result handle * World;
  invoke : handle → list loc → World → result Tensor * World
}.

(** The world foreign code hands back.  Objects the script holds a
    reference to stay alive: foreign code can rewrite them in place and
    create new ones, but it cannot free them. *)
Definition absorb (w w' : World) : World :=
  {| heap := heap w' ∪ heap w; rng := rng w';
     stdout := stdout w'; os := os w' |}.

Fixpoint draws (next : gen → scalar * gen) (n : nat) (g : gen)
    : list scalar * gen :=
  match n with
  | 0 => ([], g)
  | S n' =>
      let (x, g1) := next g in
      let (xs, g2) := draws next n' g1 in
      (x :: xs, g2)
  end.

Definition numel (dims : list nat) : nat := foldr Nat.mul 1 dims.

Definition alloc (t : Tensor) (w : World) : loc * World :=
  let l := fresh (dom (heap w)) in
  (l, {| heap := <[l := t]> (heap w); rng := rng w;
         stdout := stdout w; os := os w |}).

(** A new tensor of the given dimensions filled from the generator. *)
Definition fill (E : Env) (d : law) (dims : list nat) (w : World)
    : loc * World :=
  let (xs, g) := draws (sample E d) (numel dims) (rng w) in
  alloc {| shape := dims; data := xs |}
        {| heap := heap w; rng := g; stdout := stdout w; os := os w |}.

Definition with_os (w : World) (o : OS) : World :=
  {| heap := heap w; rng := rng w; stdout := stdout w; os := o |}.

(** [print] writes its arguments separated by one space, as one line. *)
Definition write_line (args : list string) (w : World) : World :=
  {| heap := heap w; rng := rng w;
     stdout := stdout w ++ [String.concat " " args]; os := os w |}.

Definition handle_op (E : Env) (o : op) (w : World)
    : result (ans o) * World :=
  match o return result (ans o) * World with
  | TorchRand dims => let (l, w') := fill E Uniform01 dims w in (Ok l, w')
  | TorchRandn dims => let (l, w') := fill E StdNormal dims w in (Ok l, w')
  | New cls args =>
      let (r, w') := construct E cls args w in (r, absorb w w')
  | Call f args =>
      match invoke E f args w with
      | (Ok t, w') => let (l, w'') := alloc t (absorb w w') in (Ok l, w'')
      | (Raise e, w') => (Raise e, absorb w w')
      end
  | Shape t =>
      match heap w !! t with
      | Some x => (Ok (shape x), w)
      | None => (Raise (PyError "AttributeError" "shape"), w)
      end
  | Print args => (Ok (), write_line args w)
  | Argv => (Ok (argv (os w)), w)
  | Getenv name => (Ok (environ (os w) !! name), w)
  | ReadFile path =>
      match files (os w) !! path with
      | Some c => (Ok c, w)
      | None => (Raise (PyError "FileNotFoundError" path), w)
      end
  | WriteFile path c =>
      (Ok (), with_os w {| argv := argv (os w); environ := environ (os w);
                           files := <[path := c]> (files (os w));
                           sent := sent (os w) |})
  | Send msg =>
      (Ok (), with_os w {| argv := argv (os w); environ := environ (os w);
                           files := files (os w);
                           sent := sent (os w) ++ [msg] |})
  end.

(** ** Runs *)

(** What a run leaves behind: how it ended, the operations the script
    asked for, each with the error it raised if it raised one, and the
    last world. *)
Record Run (A : Type) := {
  outcome : result A;
  trace : list (op * option pyerror);
  final : World
}.
Arguments outcome {A} r.
Arguments trace {A} r.
Arguments final {A} r.

(** No operation is guarded: the first error ends the run. *)
Fixpoint run {A} (E : Env) (p : Py A) (w : World) : Run A :=
  match p with
  | Ret a => {| outcome := Ok a; trace := []; final := w |}
  | Do o k =>
      match handle_op E o w with
      | (Ok x, w') =>
          let r := run E (k x) w' in
          {| outcome := outcome r; trace := (o, None) :: trace r;
             final := final r |}
      | (Raise e, w') =>
          {| outcome := Raise e; trace := [(o, Some e)]; final := w' |}
      end
  end.

(** The status the interpreter exits with: 0 when the script runs to
    its end, 1 when an error reaches the top level. *)
Definition exit_status {A} (r : result A) : Z :=
  match r with
  | Ok _ => 0%Z
  | Raise _ => 1%Z
  end.

Definition ops {A} (r : Run A) : list op := (trace r).*1.
End World.

Arguments Tensor : clear implicits.
Arguments World : clear implicits.
Arguments Env : clear implicits.
Arguments Run : clear implicits.
Arguments outcome {scalar gen A} r.
Arguments trace {scalar gen A} r.
Arguments final {scalar gen A} r.
Arguments fill : simpl never.
Arguments alloc : simpl never.
Arguments absorb : simpl never.
Arguments write_line : simpl never.
Arguments numel : simpl never.

(** ** The imported class *)

Section Autoencoder.
Context {scalar gen : Type}.

(** Modelled from the spec: the class [Autoencoder] of autoencoder.py,
    which example.py imports and which is not among the sources.  The
    spec describes it as a model construct that accepts a 4-axis tensor
    of shape (N, 3, H, W) and returns a tensor of the same shape, a map
    from an input tensor to an output tensor of identical shape whose
    internals are out of scope; building an instance or running it may
    fail. *)
Record Autoencoder := {
  init : result ();
  forward : Tensor scalar → result (Tensor scalar);
  forward_shape : ∀ x y N H W,
    shape x = [N; 3; H; W] → forward x = Ok y → shape y = [N; 3; H; W]
}.

Definition TypeError (msg : string) : pyerror := PyError "TypeError" msg.

(** The module autoencoder.py as the handler sees it: it exports the one
    class, which takes no constructor argument; an instance takes one
    tensor.  The model reads its input and leaves the rest of the world
    alone. *)
Definition autoencoder_py (smp : law → gen → scalar * gen)
    (A : Autoencoder) : Env scalar gen :=
  {| sample := smp;
     construct := λ cls args w,
       if decide (cls = "Autoencoder") then
         match args, init A with
         | [], Ok _ => (Ok 1%positive, w)
         | [], Raise e => (Raise e, w)
         | _, _ => (Raise (TypeError "__init__"), w)
         end
       else (Raise (PyError "NameError" cls), w);
     invoke := λ f args w,
       match args with
       | [d] =>
           match heap w !! d with
           | Some x => (forward A x, w)
           | None => (Raise (TypeError "forward"), w)
           end
       | _ => (Raise (TypeError "forward"), w)
       end |}.
End Autoencoder.

Arguments Autoencoder : clear implicits.

(** ** Concrete worlds and models *)

(** A generator that counts: enough to run the script. *)
Definition counter (d : law) (g : Z) : Z * Z :=
  (match d with Uniform01 => g | StdNormal => (g - 100000)%Z end, Z.succ g).

Definition quiet : OS :=
  {| argv := ["example.py"]; environ := ∅; files := ∅; sent := [] |}.

Definition boot : World Z Z :=
  {| heap := ∅; rng := 0%Z; stdout := []; os := quiet |}.

(** A world that holds one tensor, a batch of one RGB pixel. *)
Definition pixel : World Z Z :=
  {| heap := {[ 1%positive := {| shape := [1; 3; 1; 1];
                                 data := [0; 0; 0]%Z |} ]};
     rng := 0%Z; stdout := []; os := quiet |}.

(** A model that returns its input. *)
Definition identity : Autoencoder Z.
Proof.
  refine {| init := Ok (); forward := Ok |}.
  intros x y N H W Hx [= <-]. exact Hx.
Defined.

(** A class whose constructor raises. *)
Definition broken_init : Env Z Z :=
  {| sample := counter;
     construct := λ _ _ w, (Raise (PyError "RuntimeError" "init"), w);
     invoke := λ _ _ w, (Raise (PyError "RuntimeError" "forward"), w) |}.

(** A model whose forward computation raises. *)
Definition broken_forward : Env Z Z :=
  {| sample := counter;
     construct := λ _ _ w, (Ok 1%positive, w);
     invoke := λ _ _ w, (Raise (PyError "RuntimeError" "forward"), w) |}.

(** A model that returns a tensor of another shape. *)
Definition flat : Env Z Z :=
  {| sample := counter;
     construct := λ _ _ w, (Ok 1%positive, w);
     invoke := λ _ _ w, (Ok {| shape := [1]; data := [0%Z] |}, w) |}.

(** A model that reshapes its argument in place and returns a copy of
    what it was given. *)
Definition reshaping : Env Z Z :=
  {| sample := counter;
     construct := λ _ _ w, (Ok 1%positive, w);
     invoke := λ _ args w,
       match args with
       | [d] =>
           match heap w !! d with
           | Some x =>
               (Ok x, {| heap := <[d := {| shape := [numel (shape x)];
                                          data := data x |}]> (heap w);
                         rng := rng w; stdout := stdout w; os := os w |})
           | None => (Raise (PyError "TypeError" "forward"), w)
           end
       | _ => (Raise (PyError "TypeError" "forward"), w)
       end |}.

(** A model that empties its argument in place, whatever it holds. *)
Definition emptying : Env Z Z :=
  {| sample := counter;
     construct := λ _ _ w, (Ok 1%positive, w);
     invoke := λ _ args w,
       match args with
       | [d] =>
           (Ok {| shape := [1]; data := [0%Z] |},
            {| heap := <[d := {| shape := [0]; data := [] |}]> (heap w);
               rng := rng w; stdout := stdout w; os := os w |})
       | _ => (Raise (PyError "TypeError" "forward"), w)
       end |}.

(** ** The three ways a run of the script can end *)

Section Endings.
Context {scalar gen : Type}.
Implicit Types (E : Env scalar gen) (w : World scalar gen).

(** The reference bound to [dummy] and the world after line 12. *)
Definition batch E w : loc * World scalar gen :=
  fill E StdNormal [2; 3; 150; 225] w.

(** The tensor line 12 creates. *)
Definition batch_tensor E w : Tensor scalar :=
  {| shape := [2; 3; 150; 225];
     data := (draws (sample E StdNormal) (numel [2; 3; 150; 225])
                (rng w)).1 |}.

Definition input_line (s : list nat) : list string :=
  ["input  shape :"; torch.str_Size s].
Definition output_line (s : list nat) : list string :=
  ["output shape:"; torch.str_Size s].

(** The operations of a run that meets no error, in order. *)
Definition script_ops (dummy : loc) (model : handle) (out : loc)
    (s_in s_out : list nat) : list op :=
  [TorchRandn [2; 3; 150; 225]; New "Autoencoder" []; Call model [dummy];
   Shape dummy; Print (input_line s_in);
   Shape out; Print (output_line s_out)].

(** Foreign code that leaves the tensor at [l] as it is. *)
Definition leaves E (l : loc) : Prop :=
  (∀ cls args w, heap (construct E cls args w).2 !! l = heap w !! l) ∧
  (∀ f args w, heap (invoke E f args w).2 !! l = heap w !! l).

(** Foreign code that leaves the operating system as it is. *)
Definition os_neutral E : Prop :=
  (∀ cls args w, os (construct E cls args w).2 = os w) ∧
  (∀ f args w, os (invoke E f args w).2 = os w).

Inductive ending E w : Run scalar gen () → Prop :=
| init_raised e w2 :
    construct E "Autoencoder" [] (batch E w).2 = (Raise e, w2) →
    ending E w
      {| outcome := Raise e;
         trace := [(TorchRandn [2; 3; 150; 225], None);
                   (New "Autoencoder" [], Some e)];
         final := absorb (batch E w).2 w2 |}
| forward_raised m w2 e w3 :
    construct E "Autoencoder" [] (batch E w).2 = (Ok m, w2) →
    invoke E m [(batch E w).1] (absorb (batch E w).2 w2) = (Raise e, w3) →
    ending E w
      {| outcome := Raise e;
         trace := [(TorchRandn [2; 3; 150; 225], None);
                   (New "Autoencoder" [], None);
                   (Call m [(batch E w).1], Some e)];
         final := absorb (absorb (batch E w).2 w2) w3 |}
| returned m w2 y w3 x :
    construct E "Autoencoder" [] (batch E w).2 = (Ok m, w2) →
    invoke E m [(batch E w).1] (absorb (batch E w).2 w2) = (Ok y, w3) →
    heap (absorb (absorb (batch E w).2 w2) w3) !! (batch E w).1 = Some x →
    ending E w
      {| outcome := Ok ();
         trace := [(TorchRandn [2; 3; 150; 225], None);
                   (New "Autoencoder" [], None);
                   (Call m [(batch E w).1], None);
                   (Shape (batch E w).1, None);
                   (Print (input_line (shape x)), None);
                   (Shape (alloc y (absorb (absorb (batch E w).2 w2) w3)).1,
                    None);
                   (Print (output_line (shape y)), None)];
         final :=
           write_line (output_line (shape y))
             (write_line (input_line (shape x))
                (alloc y (absorb (absorb (batch E w).2 w2) w3)).2) |}.
End Endings.

(** ** What the two printed lines show *)

(** The characters [str] of a dimension is made of. *)
Definition is_digit (c : ascii) : bool :=
  match c with
  | "0" | "1" | "2" | "3" | "4" | "5" | "6" | "7" | "8" | "9" => true
  | _ => false
  end%char.

Fixpoint digits (s : string) : bool :=
  match s with
  | "" => true
  | String c s' => is_digit c && digits s'
  end.

(** A string at which a run of digits stops. *)
Definition stops (s : string) : bool :=
  match s with
  | "" => true
  | String c _ => negb (is_digit c)
  end.

(** The text of a [torch.Size] from its first dimension on. *)
Definition size_body (s : list nat) : string :=
  String.concat ", " (pretty <$> s) +:+ "])".

(** What follows the first dimension. *)
Definition size_rest (s : list nat) : string :=
  match s with
  | [] => "])"
  | _ :: _ => ", " +:+ size_body s
  end.

Definition is_new (o : op) : bool :=
  match o with New _ _ => true | _ => false end.

Definition is_call (o : op) : bool :=
  match o with Call _ _ => true | _ => false end.

(** * Properties *)

Section Handler.
Context {scalar gen : Type}.
Implicit Types (E : Env scalar gen) (w : World scalar gen).
Implicit Types (t x y : Tensor scalar).

Lemma alloc_fst t w : (alloc t w).1 = fresh (dom (heap w)).
Proof. reflexivity. Qed.

Lemma alloc_heap t w :
  heap (alloc t w).2 = <[fresh (dom (heap w)) := t]> (heap w).
Proof. reflexivity. Qed.

Lemma alloc_lookup_new t w : heap (alloc t w).2 !! (alloc t w).1 = Some t.
Proof. rewrite alloc_heap, alloc_fst. apply lookup_insert_eq. Qed.

Lemma fresh_loc_free w l t :
  heap w !! l = Some t → fresh (dom (heap w)) ≠ l.
Proof.
  intros Hl Heq. subst l. apply (is_fresh (dom (heap w))).
  apply elem_of_dom. by eexists.
Qed.

(** Allocation leaves the tensors that exist where they are. *)
Lemma alloc_lookup_old t w l x :
  heap w !! l = Some x → heap (alloc t w).2 !! l = Some x.
Proof.
  intros Hl. rewrite alloc_heap, lookup_insert_ne; [done|].
  by eapply fresh_loc_free.
Qed.

(** Foreign code cannot free a tensor the script refers to. *)
Lemma absorb_alive w w' l :
  is_Some (heap w !! l) → is_Some (heap (absorb w w') !! l).
Proof.
  intros [x Hx]. unfold absorb; simpl.
  destruct (heap w' !! l) as [x'|] eqn:Hl.
  - exists x'. by apply lookup_union_Some_l.
  - exists x. by rewrite lookup_union_r.
Qed.

Lemma absorb_untouched w w' l :
  heap w' !! l = heap w !! l → heap (absorb w w') !! l = heap w !! l.
Proof.
  intros Hl. unfold absorb; simpl.
  destruct (heap w !! l) as [x|] eqn:Hw.
  - by apply lookup_union_Some_l.
  - apply lookup_union_None. by rewrite Hl.
Qed.

Lemma fill_unfold E d dims w :
  fill E d dims w =
    alloc {| shape := dims;
             data := (draws (sample E d) (numel dims) (rng w)).1 |}
          {| heap := heap w;
             rng := (draws (sample E d) (numel dims) (rng w)).2;
             stdout := stdout w; os := os w |}.
Proof. unfold fill. by destruct (draws _ _ _). Qed.

Lemma fill_fst E d dims w : (fill E d dims w).1 = fresh (dom (heap w)).
Proof. by rewrite fill_unfold. Qed.

Lemma fill_lookup E d dims w :
  heap (fill E d dims w).2 !! (fill E d dims w).1 =
    Some {| shape := dims;
            data := (draws (sample E d) (numel dims) (rng w)).1 |}.
Proof. rewrite fill_unfold. apply alloc_lookup_new. Qed.

Lemma fill_stdout E d dims w : stdout (fill E d dims w).2 = stdout w.
Proof. by rewrite fill_unfold. Qed.

Lemma fill_os E d dims w : os (fill E d dims w).2 = os w.
Proof. by rewrite fill_unfold. Qed.

Lemma draws_length (next : gen → scalar * gen) n g :
  length (draws next n g).1 = n.
Proof.
  revert g. induction n as [|n IH]; intros g; simpl; [done|].
  destruct (next g) as [x g1]. specialize (IH g1).
  destruct (draws next n g1) as [xs g2]. simpl in *. by rewrite IH.
Qed.

(** The script, with its binds carried out. *)
Lemma example_unfold :
  example =
    Do (TorchRandn [2; 3; 150; 225]) (λ dummy : loc,
    Do (New "Autoencoder" []) (λ model : handle,
    Do (Call model [dummy]) (λ out : loc,
    Do (Shape dummy) (λ s_in : list nat,
    Do (Print (input_line s_in)) (λ _ : (),
    Do (Shape out) (λ s_out : list nat,
    Do (Print (output_line s_out)) Ret)))))).
Proof. reflexivity. Qed.

Lemma run_step {A} E o (k : ans o → Py A) w :
  run E (Do o k) w =
    match handle_op E o w with
    | (Ok a, w') =>
        {| outcome := outcome (run E (k a) w');
           trace := (o, None) :: trace (run E (k a) w');
           final := final (run E (k a) w') |}
    | (Raise e, w') =>
        {| outcome := Raise e; trace := [(o, Some e)]; final := w' |}
    end.
Proof. reflexivity. Qed.

Lemma handle_randn E dims w :
  handle_op E (TorchRandn dims) w =
    (Ok (fill E StdNormal dims w).1, (fill E StdNormal dims w).2).
Proof. simpl. by destruct (fill _ _ _ _). Qed.

Lemma handle_new E cls args w r w' :
  construct E cls args w = (r, w') →
  handle_op E (New cls args) w = (r, absorb w w').
Proof. intros H. simpl. by rewrite H. Qed.

Lemma handle_call_ok E f args w t w' :
  invoke E f args w = (Ok t, w') →
  handle_op E (Call f args) w =
    (Ok (alloc t (absorb w w')).1, (alloc t (absorb w w')).2).
Proof. intros H. cbn [handle_op]. rewrite H. by destruct (alloc _ _). Qed.

Lemma handle_call_raise E f args w e w' :
  invoke E f args w = (Raise e, w') →
  handle_op E (Call f args) w = (Raise e, absorb w w').
Proof. intros H. cbn [handle_op]. by rewrite H. Qed.

Lemma handle_shape E l w x :
  heap w !! l = Some x → handle_op E (Shape l) w = (Ok (shape x), w).
Proof. intros H. cbn [handle_op]. by rewrite H. Qed.

Lemma handle_print E args w :
  handle_op E (Print args) w = (Ok (), write_line args w).
Proof. reflexivity. Qed.

Lemma write_line_heap args w : heap (write_line args w) = heap w.
Proof. reflexivity. Qed.

(** Every run of the script ends in one of the three ways. *)
Lemma example_ending E w : ending E w (run E example w).
Proof.
  rewrite example_unfold, run_step, handle_randn. fold (batch E w).
  cbv beta iota.
  destruct (construct E "Autoencoder" [] (batch E w).2)
    as [[m|e] w2] eqn:Hc;
    rewrite run_step, (handle_new _ _ _ _ _ _ Hc); cbv beta iota;
    [|by apply init_raised].
  destruct (invoke E m [(batch E w).1] (absorb (batch E w).2 w2))
    as [[y|e] w3] eqn:Hi; rewrite run_step.
  2:{ rewrite (handle_call_raise _ _ _ _ _ _ Hi).
      by apply forward_raised. }
  rewrite (handle_call_ok _ _ _ _ _ _ Hi). cbv beta iota.
  set (w3' := absorb (absorb (batch E w).2 w2) w3).
  assert (is_Some (heap w3' !! (batch E w).1)) as [x Hx].
  { do 2 apply absorb_alive. unfold batch. rewrite fill_lookup. by eexists. }
  rewrite run_step,
    (handle_shape _ _ _ _ (alloc_lookup_old y _ _ _ Hx)).
  cbv beta iota. rewrite run_step, handle_print. cbv beta iota.
  rewrite run_step, (handle_shape _ _ _ y).
  2:{ rewrite write_line_heap. apply alloc_lookup_new. }
  cbv beta iota. rewrite run_step, handle_print. cbv beta iota.
  cbn [run outcome trace final].
  by apply (returned E w m w2 y w3 x).
Qed.

(** An error raised by any operation is the outcome of the run. *)
Lemma run_raise_propagates {A} E (p : Py A) w o e :
  (o, Some e) ∈ trace (run E p w) → outcome (run E p w) = Raise e.
Proof.
  revert w. induction p as [a|o' k IH]; intros w; simpl.
  - by intros ?%elem_of_nil.
  - destruct (handle_op E o' w) as [[a|e'] w']; simpl.
    + intros [[=]|Hin]%elem_of_cons. by apply IH.
    + by intros [[= _ ->]|?%elem_of_nil]%elem_of_cons.
Qed.

(** Nothing is executed after an operation that raises. *)
Lemma run_raise_last {A} E (p : Py A) w i o e :
  trace (run E p w) !! i = Some (o, Some e) →
  length (trace (run E p w)) = S i.
Proof.
  revert w i. induction p as [a|o' k IH]; intros w i; simpl.
  - by destruct i.
  - destruct (handle_op E o' w) as [[a|e'] w']; simpl.
    + destruct i as [|i]; [by intros [=]|]. intros Hl. f_equal.
      by apply IH.
    + destruct i as [|i]; [done|]. by destruct i.
Qed.

(** A run that reaches its end raised nothing on the way. *)
Lemma run_ok_no_raise {A} E (p : Py A) w a o e :
  outcome (run E p w) = Ok a → (o, Some e) ∉ trace (run E p w).
Proof. intros Hok Hin. apply run_raise_propagates in Hin. congruence. Qed.

Lemma batch_lookup E w :
  heap (batch E w).2 !! (batch E w).1 = Some (batch_tensor E w).
Proof. apply fill_lookup. Qed.

Lemma batch_stdout E w : stdout (batch E w).2 = stdout w.
Proof. apply fill_stdout. Qed.

Lemma batch_os E w : os (batch E w).2 = os w.
Proof. apply fill_os. Qed.

Lemma str_Size_batch :
  torch.str_Size [2; 3; 150; 225] = "torch.Size([2, 3, 150, 225])".
Proof. by vm_compute. Qed.
End Handler.

(** Case analysis on how the run of the script in [w] ended; the batch
    reference and the world after line 12 become variables. *)
Ltac by_ending E w :=
  let d := fresh "d" in
  let w1 := fresh "w1" in
  let Hb := fresh "Hb" in
  let e := fresh "e" in
  let m := fresh "m" in
  let w2 := fresh "w2" in
  let w3 := fresh "w3" in
  let x := fresh "x" in
  let y := fresh "y" in
  destruct (example_ending E w)
    as [e w2 Hc|m w2 e w3 Hc Hi|m w2 y w3 x Hc Hi Hx];
  destruct (batch E w) as [d w1] eqn:Hb;
  cbn [fst snd outcome trace final] in *.

(** Case analysis on membership in a list that is written out. *)
Ltac in_cases H :=
  repeat (apply elem_of_cons in H; destruct H as [H|H]);
  try (by apply elem_of_nil in H).

(** * The claims *)

(** What the spec-modelled module does when the handler calls it. *)
Lemma autoencoder_invoke {scalar gen} smp (A : Autoencoder scalar) f d
    (w : World scalar gen) x :
  heap w !! d = Some x →
  invoke (autoencoder_py smp A) f [d] w = (forward A x, w).
Proof. intros H. simpl. by rewrite H. Qed.

Lemma autoencoder_construct {scalar gen} smp (A : Autoencoder scalar)
    (w : World scalar gen) r w' :
  construct (autoencoder_py smp A) "Autoencoder" [] w = (r, w') → w' = w.
Proof.
  cbn [construct autoencoder_py]. rewrite decide_True by done.
  destruct (init A); by intros [= _ <-].
Qed.

(** C1: a model as the spec describes it returns, for an input of shape
    (N, 3, H, W), an output of shape (N, 3, H, W); and a run of the script
    against such a model that reaches its end has printed the same shape
    twice, torch.Size([2, 3, 150, 225]), first for the input and then for
    the output. *)
Theorem C1_output_shape_is_input_shape {scalar gen}
    (smp : law → gen → scalar * gen) (A : Autoencoder scalar)
    (w : World scalar gen) :
  (∀ f d w0 x y w', heap w0 !! d = Some x →
     ∀ N H W, shape x = [N; 3; H; W] →
     invoke (autoencoder_py smp A) f [d] w0 = (Ok y, w') →
     shape y = [N; 3; H; W] ∧ shape y = shape x) ∧
  (outcome (run (autoencoder_py smp A) example w) = Ok () →
   stdout (final (run (autoencoder_py smp A) example w)) =
     (stdout w ++ ["input  shape : torch.Size([2, 3, 150, 225])";
                   "output shape: torch.Size([2, 3, 150, 225])"])%list).
Proof.
  split.
  - intros f d w0 x y w' Hx N H W Hs.
    rewrite (autoencoder_invoke _ _ _ _ _ _ Hx). intros [= Hy _].
    pose proof (forward_shape A x y N H W Hs Hy). split; congruence.
  - pose proof (batch_lookup (autoencoder_py smp A) w) as Hd.
    pose proof (batch_stdout (autoencoder_py smp A) w) as Hout.
    by_ending (autoencoder_py smp A) w; try discriminate. intros _.
    apply autoencoder_construct in Hc. subst w2.
    assert (heap (absorb w1 w1) !! d = heap w1 !! d) as Ha
      by by apply absorb_untouched.
    rewrite Hd in Ha.
    rewrite (autoencoder_invoke _ _ _ _ _ _ Ha) in Hi.
    injection Hi as Hy <-.
    rewrite absorb_untouched, Ha in Hx by done. injection Hx as <-.
    rewrite (forward_shape A (batch_tensor _ w) y 2 150 225 eq_refl Hy).
    unfold write_line, alloc, absorb. cbn [stdout snd shape batch_tensor].
    rewrite Hout.
    unfold input_line, output_line. rewrite str_Size_batch.
    by rewrite <- app_assoc.
Qed.

(** C1, on a model that returns its input: called on a batch of one RGB
    pixel, and run by the script. *)
Lemma C1_output_shape_is_input_shape_witness :
  (invoke (autoencoder_py counter identity) 1%positive [1%positive] pixel =
     (Ok {| shape := [1; 3; 1; 1]; data := [0; 0; 0]%Z |}, pixel) ∧
   shape {| shape := [1; 3; 1; 1]; data := [0; 0; 0]%Z |} = [1; 3; 1; 1]) ∧
  outcome (run (autoencoder_py counter identity) example boot) = Ok () ∧
  stdout (final (run (autoencoder_py counter identity) example boot)) =
    ["input  shape : torch.Size([2, 3, 150, 225])";
     "output shape: torch.Size([2, 3, 150, 225])"].
Proof.
  split; [split; [reflexivity|]|split; [by vm_compute|]].
  - refine (proj1 (proj1 (C1_output_shape_is_input_shape counter identity
      boot) 1%positive 1%positive pixel
      {| shape := [1; 3; 1; 1]; data := [0; 0; 0]%Z |}
      {| shape := [1; 3; 1; 1]; data := [0; 0; 0]%Z |} pixel _
      1 1 1 _ _)); reflexivity.
  - apply (proj2 (C1_output_shape_is_input_shape counter identity boot)).
    by vm_compute.
Defined.

(** The run always starts by asking for the batch, and that request is
    answered. *)
Lemma trace_head {scalar gen} (E : Env scalar gen) w :
  ∃ rest, trace (run E example w) =
            (TorchRandn [2; 3; 150; 225], None) :: rest.
Proof. by_ending E w; by eexists. Qed.

Lemma numel_batch : numel [2; 3; 150; 225] = 2 * 3 * 150 * 225.
Proof. unfold numel. cbn [foldr]. lia. Qed.

(** C2, as the spec states it, fails: the operation that produces the
    batch is [torch.randn], whose law is the standard normal one, not the
    uniform one. *)
Lemma C2_not_uniform :
  ¬ (∀ o, head (ops (run (autoencoder_py counter identity) example boot))
            = Some o →
          sampling_law o = Some Uniform01).
Proof.
  intros H. specialize (H (TorchRandn [2; 3; 150; 225])).
  assert (sampling_law (TorchRandn [2; 3; 150; 225]) = Some Uniform01)
    as Hlaw by (apply H; by vm_compute).
  discriminate Hlaw.
Qed.

(** C2, amended: in every run the operation that produces the batch is
    [torch.randn] on the dimensions 2, 3, 150, 225; it fills a new tensor
    of these dimensions with values drawn from the generator under the
    standard normal law, one value per element. *)
Theorem C2_batch_is_standard_normal {scalar gen} (E : Env scalar gen)
    (w : World scalar gen) :
  (∃ rest, ops (run E example w) = TorchRandn [2; 3; 150; 225] :: rest) ∧
  sampling_law (TorchRandn [2; 3; 150; 225]) = Some StdNormal ∧
  handle_op E (TorchRandn [2; 3; 150; 225]) w =
    (Ok (batch E w).1, (batch E w).2) ∧
  heap (batch E w).2 !! (batch E w).1 =
    Some {| shape := [2; 3; 150; 225];
            data := (draws (sample E StdNormal) (2 * 3 * 150 * 225)
                       (rng w)).1 |}.
Proof.
  split; [|split; [done|split]].
  - destruct (trace_head E w) as [rest Hr]. exists (rest.*1).
    unfold ops. by rewrite Hr.
  - apply handle_randn.
  - rewrite batch_lookup. unfold batch_tensor. by rewrite numel_batch.
Qed.

(** C3: in every run the batch that line 12 creates is a tensor with the
    four dimensions 2, 3, 150, 225, in that order, and holds one value
    per element. *)
Theorem C3_batch_shape {scalar gen} (E : Env scalar gen)
    (w : World scalar gen) :
  (∃ rest, trace (run E example w) =
             (TorchRandn [2; 3; 150; 225], None) :: rest) ∧
  handle_op E (TorchRandn [2; 3; 150; 225]) w =
    (Ok (batch E w).1, (batch E w).2) ∧
  ∃ x, heap (batch E w).2 !! (batch E w).1 = Some x ∧
       shape x = [2; 3; 150; 225] ∧
       length (shape x) = 4 ∧
       length (data x) = 2 * 3 * 150 * 225.
Proof.
  split; [apply trace_head|]. split; [apply handle_randn|].
  exists (batch_tensor E w). split; [apply batch_lookup|].
  split; [done|]. split; [done|].
  unfold batch_tensor. cbn [data]. by rewrite draws_length, numel_batch.
Qed.

(** C4: the script compares no shapes.  In every run in which the model
    is built and the forward computation returns a tensor, whatever its
    shape, the script reaches its end and the process exits with status
    0; after the call the script only reads the two shapes and prints
    them. *)
Theorem C4_no_shape_check {scalar gen} (E : Env scalar gen)
    (w : World scalar gen) m w2 y w3 :
  construct E "Autoencoder" [] (batch E w).2 = (Ok m, w2) →
  invoke E m [(batch E w).1] (absorb (batch E w).2 w2) = (Ok y, w3) →
  outcome (run E example w) = Ok () ∧
  exit_status (outcome (run E example w)) = 0%Z ∧
  ∃ out s_in,
    ops (run E example w) =
      script_ops (batch E w).1 m out s_in (shape y).
Proof.
  intros Hm Hy. by_ending E w; rewrite Hm in Hc; try discriminate Hc.
  - injection Hc as -> ->. rewrite Hy in Hi. discriminate Hi.
  - injection Hc as -> ->. rewrite Hy in Hi. injection Hi as -> ->.
    split; [done|]. split; [done|]. by do 2 eexists.
Qed.

(** C4, on a model whose output has one element where the input has
    four axes. *)
Lemma C4_no_shape_check_witness :
  exit_status (outcome (run flat example boot)) = 0%Z ∧
  stdout (final (run flat example boot)) =
    ["input  shape : torch.Size([2, 3, 150, 225])";
     "output shape: torch.Size([1])"].
Proof.
  split; [|by vm_compute].
  refine (proj1 (proj2 (C4_no_shape_check flat boot 1%positive
    (batch flat boot).2 {| shape := [1]; data := [0%Z] |}
    (absorb (batch flat boot).2 (batch flat boot).2) _ _)));
    reflexivity.
Defined.

(** C5: the script handles no error.  When the constructor raises, or
    when the forward computation raises, the error is the outcome of the
    run and the process exits with a status other than 0; and whichever
    operation raises, its error is the outcome: none is caught. *)
Theorem C5_errors_propagate {scalar gen} (E : Env scalar gen)
    (w : World scalar gen) :
  (∀ e w2,
     construct E "Autoencoder" [] (batch E w).2 = (Raise e, w2) →
     outcome (run E example w) = Raise e ∧
     exit_status (outcome (run E example w)) ≠ 0%Z) ∧
  (∀ m w2 e w3,
     construct E "Autoencoder" [] (batch E w).2 = (Ok m, w2) →
     invoke E m [(batch E w).1] (absorb (batch E w).2 w2) = (Raise e, w3) →
     outcome (run E example w) = Raise e ∧
     exit_status (outcome (run E example w)) ≠ 0%Z) ∧
  (∀ o e, (o, Some e) ∈ trace (run E example w) →
     outcome (run E example w) = Raise e ∧
     exit_status (outcome (run E example w)) ≠ 0%Z).
Proof.
  split; [|split].
  - intros e' w2' He. by_ending E w; rewrite He in Hc; by simplify_eq.
  - intros m' w2' e' w3' Hm He.
    by_ending E w; rewrite Hm in Hc; try discriminate Hc;
      injection Hc as -> ->; rewrite He in Hi; by simplify_eq.
  - intros o e Hin. apply run_raise_propagates in Hin. by rewrite Hin.
Qed.

(** C5, on a class whose constructor raises and on a model whose forward
    computation raises. *)
Lemma C5_errors_propagate_witness :
  (outcome (run broken_init example boot) =
     Raise (PyError "RuntimeError" "init") ∧
   exit_status (outcome (run broken_init example boot)) ≠ 0%Z) ∧
  (outcome (run broken_forward example boot) =
     Raise (PyError "RuntimeError" "forward") ∧
   exit_status (outcome (run broken_forward example boot)) ≠ 0%Z).
Proof.
  split.
  - refine (proj1 (C5_errors_propagate broken_init boot) _
             (batch broken_init boot).2 _). reflexivity.
  - refine (proj1 (proj2 (C5_errors_propagate broken_forward boot))
             1%positive (batch broken_forward boot).2 _
             (absorb (batch broken_forward boot).2
                     (batch broken_forward boot).2) _ _); reflexivity.
Defined.

(** C6, as the spec states it, fails: when the constructor raises, the
    run stops after two operations; the forward computation and the two
    prints are never reached. *)
Lemma C6_run_cut_short :
  ops (run broken_init example boot) =
    [TorchRandn [2; 3; 150; 225]; New "Autoencoder" []] ∧
  ¬ (∃ d m out s_in s_out,
       ops (run broken_init example boot) = script_ops d m out s_in s_out).
Proof.
  assert (ops (run broken_init example boot) =
            [TorchRandn [2; 3; 150; 225]; New "Autoencoder" []]) as Hops
    by by vm_compute.
  split; [done|]. rewrite Hops. intros (d & m & out & s_in & s_out & H).
  discriminate H.
Qed.

(** C6, amended: in every run the operations of the script are, in this
    order, an initial part of: generate the batch, construct the model,
    run the forward computation on the batch, read and print the input
    shape, read and print the output shape.  The run goes through all of
    them when neither the constructor nor the forward computation
    raises, and only then.  Otherwise it stops at the operation that
    raised: when the constructor raises, the run is the generation and
    the raising construction and nothing else; when the forward
    computation raises, it is the generation, the construction and the
    raising call and nothing else; in every run an operation that raises
    is the last one. *)
Theorem C6_operations_in_order {scalar gen} (E : Env scalar gen)
    (w : World scalar gen) :
  (∃ m out s_in s_out,
     ops (run E example w) `prefix_of`
       script_ops (batch E w).1 m out s_in s_out ∧
     (outcome (run E example w) = Ok () ↔
      ops (run E example w) = script_ops (batch E w).1 m out s_in s_out) ∧
     (outcome (run E example w) = Ok () ↔
      ∃ w2 y w3,
        construct E "Autoencoder" [] (batch E w).2 = (Ok m, w2) ∧
        invoke E m [(batch E w).1] (absorb (batch E w).2 w2) = (Ok y, w3))) ∧
  (∀ e w2,
     construct E "Autoencoder" [] (batch E w).2 = (Raise e, w2) →
     trace (run E example w) =
       [(TorchRandn [2; 3; 150; 225], None);
        (New "Autoencoder" [], Some e)]) ∧
  (∀ m w2 e w3,
     construct E "Autoencoder" [] (batch E w).2 = (Ok m, w2) →
     invoke E m [(batch E w).1] (absorb (batch E w).2 w2) = (Raise e, w3) →
     trace (run E example w) =
       [(TorchRandn [2; 3; 150; 225], None);
        (New "Autoencoder" [], None);
        (Call m [(batch E w).1], Some e)]) ∧
  (∀ i o e, trace (run E example w) !! i = Some (o, Some e) →
     length (trace (run E example w)) = S i).
Proof.
  split; [|split; [|split]].
  - by_ending E w; unfold ops; cbn [trace fmap list_fmap fst].
    + exists 1%positive, 1%positive, [], []. split; [|split].
      * by eexists.
      * split; intros [=].
      * split; [intros [=]|]. intros (? & ? & ? & Hm & _).
        rewrite Hc in Hm. discriminate Hm.
    + exists m, 1%positive, [], []. split; [|split].
      * by eexists.
      * split; intros [=].
      * split; [intros [=]|]. intros (? & ? & ? & Hm & Hy).
        rewrite Hc in Hm. injection Hm as <-. rewrite Hi in Hy.
        discriminate Hy.
    + exists m, (alloc y (absorb (absorb w1 w2) w3)).1, (shape x), (shape y).
      split; [done|]. split; [done|]. split; [|done]. intros _. by eauto.
  - intros e' w2' He. by_ending E w; rewrite He in Hc; try discriminate Hc.
    by injection Hc as -> ->.
  - intros m' w2' e' w3' Hm He.
    by_ending E w; rewrite Hm in Hc; try discriminate Hc;
      injection Hc as -> ->; rewrite He in Hi; try discriminate Hi.
    by injection Hi as -> ->.
  - intros i o e'. apply run_raise_last.
Qed.

(** C6, on a class whose constructor raises and on a model whose forward
    computation raises. *)
Lemma C6_operations_in_order_witness :
  trace (run broken_init example boot) =
    [(TorchRandn [2; 3; 150; 225], None);
     (New "Autoencoder" [], Some (PyError "RuntimeError" "init"))] ∧
  trace (run broken_forward example boot) =
    [(TorchRandn [2; 3; 150; 225], None);
     (New "Autoencoder" [], None);
     (Call 1%positive [(batch broken_forward boot).1],
      Some (PyError "RuntimeError" "forward"))].
Proof.
  split.
  - refine (proj1 (proj2 (C6_operations_in_order broken_init boot)) _
             (batch broken_init boot).2 _). reflexivity.
  - refine (proj1 (proj2 (proj2 (C6_operations_in_order broken_forward
             boot))) 1%positive (batch broken_forward boot).2 _
             (absorb (batch broken_forward boot).2
                     (batch broken_forward boot).2) _ _); reflexivity.
Defined.

(** C7: in every run the second operation of the script is the call of
    the class [Autoencoder] with an empty argument list, and the script
    builds no instance in any other way. *)
Theorem C7_default_construction {scalar gen} (E : Env scalar gen)
    (w : World scalar gen) :
  (∃ res rest,
     trace (run E example w) =
       (TorchRandn [2; 3; 150; 225], None)
         :: (New "Autoencoder" [], res) :: rest) ∧
  (∀ cls args, New cls args ∈ ops (run E example w) →
     cls = "Autoencoder" ∧ args = []).
Proof.
  split.
  - by_ending E w; by do 2 eexists.
  - intros cls args.
    by_ending E w; unfold ops; cbn [trace fmap list_fmap fst];
      intros Hin; in_cases Hin; try discriminate Hin;
      by injection Hin as -> ->.
Qed.

(** C7, on the run against the model that returns its input. *)
Lemma C7_default_construction_witness :
  New "Autoencoder" [] ∈
    ops (run (autoencoder_py counter identity) example boot) ∧
  ("Autoencoder" = "Autoencoder" ∧ @nil loc = []).
Proof.
  assert (New "Autoencoder" [] ∈
            ops (run (autoencoder_py counter identity) example boot)) as Hin.
  { apply list_elem_of_In. vm_compute. right. by left. }
  split; [exact Hin|].
  exact (proj2 (C7_default_construction
                  (autoencoder_py counter identity) boot) _ _ Hin).
Defined.

(** C8: the operations of the script touch nothing outside the process
    but standard output.  In every run each operation is a draw from
    torch's generator, a call into the imported class, a read of a shape
    or a print; none reads the command line, the environment or a file,
    and none writes a file or uses the network.  When the imported class
    leaves the operating system alone as well, the run ends with the
    command line, the environment, the files and the network as it found
    them. *)
Theorem C8_only_stdout {scalar gen} (E : Env scalar gen)
    (w : World scalar gen) :
  (∀ o, o ∈ ops (run E example w) →
     effect_of o ∈ [Generator; Foreign; Inspect; Stdout] ∧
     effect_of o ∉ [CommandLine; Environment; FileRead; FileWrite; Network]) ∧
  (os_neutral E → os (final (run E example w)) = os w).
Proof.
  split.
  - intros o.
    by_ending E w; unfold ops; cbn [trace fmap list_fmap fst];
      intros Ho; in_cases Ho; subst o; cbn [effect_of];
      (split; [by repeat constructor|]);
      intros Hin; in_cases Hin; discriminate Hin.
  - intros [Hnew Hcall]. pose proof (batch_os E w) as Hos.
    by_ending E w.
    + unfold absorb; cbn [os]. specialize (Hnew "Autoencoder" [] w1).
      rewrite Hc in Hnew. cbn [snd] in Hnew. congruence.
    + unfold absorb; cbn [os]. specialize (Hnew "Autoencoder" [] w1).
      rewrite Hc in Hnew. cbn [snd] in Hnew.
      specialize (Hcall m [d] (absorb w1 w2)).
      rewrite Hi in Hcall. unfold absorb in Hcall; cbn [snd os] in Hcall.
      congruence.
    + unfold write_line, alloc, absorb; cbn [os snd].
      specialize (Hnew "Autoencoder" [] w1).
      rewrite Hc in Hnew. cbn [snd] in Hnew.
      specialize (Hcall m [d] (absorb w1 w2)).
      rewrite Hi in Hcall. unfold absorb in Hcall; cbn [snd os] in Hcall.
      congruence.
Qed.

(** C8, on the run against a model that ignores the operating system. *)
Lemma C8_only_stdout_witness :
  os (final (run flat example boot)) = quiet ∧
  effect_of (Print (output_line [1])) ∈
    [Generator; Foreign; Inspect; Stdout].
Proof.
  split.
  - refine (proj2 (C8_only_stdout flat boot) _). by split.
  - refine (proj1 (proj1 (C8_only_stdout flat boot) _ _)).
    apply list_elem_of_In. vm_compute. do 6 right. by left.
Defined.

(** C9: a shape line is printed only after the constructor and the
    forward computation have both returned.  When either raises, no
    operation of the run is a print and standard output is as the
    raising code left it, although the batch was created and is still in
    the store. *)
Theorem C9_no_print_after_error {scalar gen} (E : Env scalar gen)
    (w : World scalar gen) :
  (∀ e w2,
     construct E "Autoencoder" [] (batch E w).2 = (Raise e, w2) →
     (∀ o, o ∈ ops (run E example w) → is_print o = false) ∧
     stdout (final (run E example w)) = stdout w2 ∧
     is_Some (heap (final (run E example w)) !! (batch E w).1)) ∧
  (∀ m w2 e w3,
     construct E "Autoencoder" [] (batch E w).2 = (Ok m, w2) →
     invoke E m [(batch E w).1] (absorb (batch E w).2 w2) = (Raise e, w3) →
     (∀ o, o ∈ ops (run E example w) → is_print o = false) ∧
     stdout (final (run E example w)) = stdout w3 ∧
     is_Some (heap (final (run E example w)) !! (batch E w).1)) ∧
  (∀ o, o ∈ ops (run E example w) → is_print o = true →
     ∃ m w2 y w3,
       construct E "Autoencoder" [] (batch E w).2 = (Ok m, w2) ∧
       invoke E m [(batch E w).1] (absorb (batch E w).2 w2) = (Ok y, w3)).
Proof.
  pose proof (batch_lookup E w) as Hd.
  split; [|split].
  - intros e' w2' He.
    by_ending E w; rewrite He in Hc; try discriminate Hc.
    injection Hc as -> ->. split; [|split].
    + intros o Ho. unfold ops in Ho. cbn [trace fmap list_fmap fst] in Ho.
      in_cases Ho; by subst o.
    + done.
    + apply absorb_alive. by eexists.
  - intros m' w2' e' w3' Hm He.
    by_ending E w; rewrite Hm in Hc; try discriminate Hc;
      injection Hc as -> ->; rewrite He in Hi; try discriminate Hi.
    injection Hi as -> ->. split; [|split].
    + intros o Ho. unfold ops in Ho. cbn [trace fmap list_fmap fst] in Ho.
      in_cases Ho; by subst o.
    + done.
    + do 2 apply absorb_alive. by eexists.
  - intros o.
    by_ending E w; unfold ops; cbn [trace fmap list_fmap fst];
      intros Ho Hp; [in_cases Ho; by subst o..|].
    by exists m, w2, y, w3.
Qed.

(** C9, on a class whose constructor raises: nothing is printed. *)
Lemma C9_no_print_after_error_witness :
  stdout (final (run broken_init example boot)) = [] ∧
  is_print (New "Autoencoder" []) = false.
Proof.
  pose proof (proj1 (C9_no_print_after_error broken_init boot)
                (PyError "RuntimeError" "init")
                (batch broken_init boot).2 eq_refl) as (Hops & Hout & _).
  split; [exact Hout|]. apply Hops.
  apply list_elem_of_In. vm_compute. right. by left.
Defined.

Lemma fill_lookup_old {scalar gen} (E : Env scalar gen) d dims
    (w : World scalar gen) l x :
  heap w !! l = Some x → heap (fill E d dims w).2 !! l = Some x.
Proof. intros H. rewrite fill_unfold. by apply alloc_lookup_old. Qed.

Lemma handle_rand {scalar gen} (E : Env scalar gen) dims
    (w : World scalar gen) :
  handle_op E (TorchRand dims) w =
    (Ok (fill E Uniform01 dims w).1, (fill E Uniform01 dims w).2).
Proof. simpl. by destruct (fill _ _ _ _). Qed.

(** C10: the script does not modify the batch.  The only argument of the
    forward call is the reference that [torch.randn] returned; no
    operation of the script other than a call into foreign code changes
    a tensor that exists; the input shape that is printed is read, after
    the call, from the tensor behind that same reference.  When the
    foreign code leaves that tensor alone too, the tensor the model
    receives and the tensor whose shape is printed are the one line 12
    created, of shape 2, 3, 150, 225. *)
Theorem C10_input_not_modified {scalar gen} (E : Env scalar gen)
    (w : World scalar gen) :
  (∀ f args res, (Call f args, res) ∈ trace (run E example w) →
     args = [(batch E w).1]) ∧
  (∀ o w0 l x, is_foreign o = false → heap w0 !! l = Some x →
     heap (handle_op E o w0).2 !! l = Some x) ∧
  (outcome (run E example w) = Ok () →
     ∃ x, heap (final (run E example w)) !! (batch E w).1 = Some x ∧
          ops (run E example w) !! 3 = Some (Shape (batch E w).1) ∧
          ops (run E example w) !! 4 = Some (Print (input_line (shape x)))) ∧
  (leaves E (batch E w).1 →
     (∀ m w2,
        construct E "Autoencoder" [] (batch E w).2 = (Ok m, w2) →
        heap (absorb (batch E w).2 w2) !! (batch E w).1 =
          Some (batch_tensor E w)) ∧
     (outcome (run E example w) = Ok () →
        heap (final (run E example w)) !! (batch E w).1 =
          Some (batch_tensor E w) ∧
        ops (run E example w) !! 4 =
          Some (Print (input_line [2; 3; 150; 225])))).
Proof.
  pose proof (batch_lookup E w) as Hd.
  split; [|split; [|split]].
  - intros f args res.
    by_ending E w; intros Hin; in_cases Hin; try discriminate Hin;
      by injection Hin as _ ->.
  - intros o w0 l x Hf Hl. destruct o; try discriminate Hf.
    + rewrite handle_rand. by apply fill_lookup_old.
    + rewrite handle_randn. by apply fill_lookup_old.
    + cbn [handle_op]. by destruct (heap w0 !! t).
    + done.
    + done.
    + done.
    + cbn [handle_op]. by destruct (files (os w0) !! path).
    + done.
    + done.
  - by_ending E w; try discriminate. intros _. exists x.
    split; [|done]. rewrite !write_line_heap. by apply alloc_lookup_old.
  - intros [Hnew Hcall].
    assert (∀ m w2, construct E "Autoencoder" [] (batch E w).2 = (Ok m, w2) →
              heap (absorb (batch E w).2 w2) !! (batch E w).1 =
                Some (batch_tensor E w)) as Hat_call.
    { intros m w2 Hm. rewrite <- Hd. apply absorb_untouched.
      specialize (Hnew "Autoencoder" [] (batch E w).2).
      by rewrite Hm in Hnew. }
    split; [exact Hat_call|].
    by_ending E w; try discriminate. intros _.
    specialize (Hat_call m w2 Hc).
    assert (x = batch_tensor E w) as ->.
    { specialize (Hcall m [d] (absorb w1 w2)). rewrite Hi in Hcall.
      cbn [snd] in Hcall.
      rewrite absorb_untouched in Hx by done. congruence. }
    split; [|done]. rewrite !write_line_heap. apply alloc_lookup_old.
    rewrite absorb_untouched; [done|].
    specialize (Hcall m [d] (absorb w1 w2)). by rewrite Hi in Hcall.
Qed.

(** C10, on a model that does not touch its argument. *)
Lemma C10_input_not_modified_witness :
  leaves flat (batch flat boot).1 ∧
  outcome (run flat example boot) = Ok () ∧
  ops (run flat example boot) !! 4 =
    Some (Print (input_line [2; 3; 150; 225])).
Proof.
  assert (leaves flat (batch flat boot).1) as Hl by (by split).
  assert (outcome (run flat example boot) = Ok ()) as Hok by (by vm_compute).
  split; [exact Hl|]. split; [exact Hok|].
  exact (proj2 (proj2 (proj2 (proj2 (proj2
           (C10_input_not_modified flat boot))) Hl) Hok)).
Defined.

(** The store is shared: a model that reshapes its argument in place
    changes the input shape the script prints after the call. *)
Example reshaping_is_seen :
  stdout (final (run reshaping example boot)) =
    ["input  shape : torch.Size([202500])";
     "output shape: torch.Size([2, 3, 150, 225])"].
Proof. by vm_compute. Qed.

(** * Further properties of the script *)

(** ** The text of a shape determines the shape *)

Lemma append_nil (s : string) : "" +:+ s = s.
Proof. reflexivity. Qed.

Lemma append_cons c (s t : string) : String c s +:+ t = String c (s +:+ t).
Proof. reflexivity. Qed.

Lemma append_assoc (a b c : string) : (a +:+ b) +:+ c = a +:+ b +:+ c.
Proof.
  induction a as [|x a IH]; [done|].
  rewrite !append_cons. by f_equal.
Qed.

Lemma pretty_N_char_digit x : is_digit (pretty_N_char x) = true.
Proof. unfold pretty_N_char. by repeat case_match. Qed.

Lemma pretty_N_go_digits x s :
  digits s = true → digits (pretty_N_go x s) = true.
Proof.
  revert s. induction (N.lt_wf_0 x) as [x _ IH]; intros s Hs.
  assert (x = 0 ∨ 0 < x)%N as [->|Hx] by lia.
  - by rewrite pretty_N_go_0.
  - rewrite pretty_N_go_step by done. apply IH; [by apply N.div_lt|].
    cbn [digits]. by rewrite pretty_N_char_digit, Hs.
Qed.

Lemma pretty_N_go_nonempty x s : s ≠ "" → pretty_N_go x s ≠ "".
Proof.
  revert s. induction (N.lt_wf_0 x) as [x _ IH]; intros s Hs.
  assert (x = 0 ∨ 0 < x)%N as [->|Hx] by lia.
  - by rewrite pretty_N_go_0.
  - rewrite pretty_N_go_step by done. apply IH; [by apply N.div_lt|done].
Qed.

Lemma pretty_nat_digits (n : nat) : digits (pretty n) = true.
Proof.
  unfold pretty, pretty_nat, pretty, pretty_N. case_decide; [done|].
  by apply pretty_N_go_digits.
Qed.

Lemma pretty_nat_nonempty (n : nat) : pretty n ≠ "".
Proof.
  unfold pretty, pretty_nat, pretty, pretty_N. case_decide; [done|].
  assert (0 < N.of_nat n)%N as Hn by lia.
  rewrite pretty_N_go_step by done. by apply pretty_N_go_nonempty.
Qed.

(** Two runs of digits that stop and go on the same way are the same. *)
Lemma digits_split a a' r r' :
  digits a = true → digits a' = true → stops r = true → stops r' = true →
  a +:+ r = a' +:+ r' → a = a' ∧ r = r'.
Proof.
  revert a'. induction a as [|c a IH]; intros [|c' a'] Ha Ha' Hr Hr' Heq;
    rewrite ?append_nil, ?append_cons in Heq; cbn [digits] in *.
  - done.
  - subst r. cbn [stops] in Hr. apply andb_true_iff in Ha' as [Hc _].
    by rewrite Hc in Hr.
  - subst r'. cbn [stops] in Hr'. apply andb_true_iff in Ha as [Hc _].
    by rewrite Hc in Hr'.
  - injection Heq as -> Heq.
    apply andb_true_iff in Ha as [_ Ha]. apply andb_true_iff in Ha' as [_ Ha'].
    destruct (IH a' Ha Ha' Hr Hr' Heq) as [-> ->]. done.
Qed.

Lemma size_body_cons n ns : size_body (n :: ns) = pretty n +:+ size_rest ns.
Proof.
  unfold size_body, size_rest. destruct ns as [|m ns]; [done|].
  change (String.concat ", " (pretty <$> n :: m :: ns))
    with (pretty n +:+ ", " +:+ String.concat ", " (pretty <$> m :: ns)).
  by rewrite !append_assoc.
Qed.

Lemma size_rest_stops ns : stops (size_rest ns) = true.
Proof. by destruct ns. Qed.

Lemma size_body_inj s s' : size_body s = size_body s' → s = s'.
Proof.
  revert s'. induction s as [|n ns IH]; intros [|n' ns'].
  - done.
  - rewrite size_body_cons. intros Heq.
    destruct (digits_split "" (pretty n') "])" (size_rest ns')) as [Hn _];
      auto using pretty_nat_digits, size_rest_stops.
    by destruct (pretty_nat_nonempty n').
  - rewrite size_body_cons. intros Heq.
    destruct (digits_split (pretty n) "" (size_rest ns) "])") as [Hn _];
      auto using pretty_nat_digits, size_rest_stops.
    by destruct (pretty_nat_nonempty n).
  - rewrite !size_body_cons. intros Heq.
    destruct (digits_split _ _ _ _ (pretty_nat_digits n)
      (pretty_nat_digits n') (size_rest_stops ns) (size_rest_stops ns') Heq)
      as [Hn Hr].
    apply (inj pretty) in Hn as ->. f_equal.
    destruct ns as [|m ns], ns' as [|m' ns']; try done.
    apply IH. cbn [size_rest] in Hr. by simplify_eq/=.
Qed.

Lemma str_Size_inj s s' : torch.str_Size s = torch.str_Size s' → s = s'.
Proof.
  unfold torch.str_Size. fold (size_body s) (size_body s').
  intros Heq. apply size_body_inj. by simplify_eq/=.
Qed.

(** ** The lines a complete run writes *)

(** X1: in a run in which the constructor and the forward computation
    return, the script adds exactly two lines to what the imported code
    has written: the label of the input, one space and the text of the
    shape the batch has after the call, then the label of the output, one
    space and the text of the shape of the tensor the call returned. *)
Theorem X1_two_lines_appended {scalar gen} (E : Env scalar gen)
    (w : World scalar gen) m w2 y w3 :
  construct E "Autoencoder" [] (batch E w).2 = (Ok m, w2) →
  invoke E m [(batch E w).1] (absorb (batch E w).2 w2) = (Ok y, w3) →
  ∃ x,
    heap (absorb (absorb (batch E w).2 w2) w3) !! (batch E w).1 = Some x ∧
    stdout (final (run E example w)) =
      (stdout w3 ++ ["input  shape : " +:+ torch.str_Size (shape x);
                     "output shape: " +:+ torch.str_Size (shape y)])%list.
Proof.
  intros Hm Hy. by_ending E w; rewrite Hm in Hc; try discriminate Hc;
    injection Hc as -> ->; rewrite Hy in Hi; try discriminate Hi.
  injection Hi as <- <-. exists x. split; [done|].
  unfold write_line, alloc, absorb. cbn [stdout snd].
  by rewrite <- app_assoc.
Qed.

(** X1, on a model whose output has another shape. *)
Lemma X1_two_lines_appended_witness :
  ∃ x,
    heap (absorb (absorb (batch flat boot).2 (batch flat boot).2)
            (absorb (batch flat boot).2 (batch flat boot).2))
      !! (batch flat boot).1 = Some x ∧
    stdout (final (run flat example boot)) =
      ["input  shape : " +:+ torch.str_Size (shape x);
       "output shape: " +:+ torch.str_Size [1]].
Proof.
  refine (X1_two_lines_appended flat boot 1%positive (batch flat boot).2
    {| shape := [1]; data := [0%Z] |}
    (absorb (batch flat boot).2 (batch flat boot).2) _ _); reflexivity.
Defined.

(** X2: the comparison by eye is sound.  In a run in which the
    constructor and the forward computation return, the shape text on
    the input line and the shape text on the output line are equal
    exactly when the batch, as it is after the call, and the output have
    the same shape. *)
Theorem X2_lines_agree_iff_shapes_agree {scalar gen} (E : Env scalar gen)
    (w : World scalar gen) m w2 y w3 :
  construct E "Autoencoder" [] (batch E w).2 = (Ok m, w2) →
  invoke E m [(batch E w).1] (absorb (batch E w).2 w2) = (Ok y, w3) →
  ∃ x t_in t_out,
    heap (absorb (absorb (batch E w).2 w2) w3) !! (batch E w).1 = Some x ∧
    ops (run E example w) !! 4 = Some (Print ["input  shape :"; t_in]) ∧
    ops (run E example w) !! 6 = Some (Print ["output shape:"; t_out]) ∧
    (t_in = t_out ↔ shape x = shape y).
Proof.
  intros Hm Hy. by_ending E w; rewrite Hm in Hc; try discriminate Hc;
    injection Hc as -> ->; rewrite Hy in Hi; try discriminate Hi.
  injection Hi as <- <-.
  exists x, (torch.str_Size (shape x)), (torch.str_Size (shape y)).
  split; [done|]. split; [done|]. split; [done|].
  split; [apply str_Size_inj|by intros ->].
Qed.

(** X2, on a model whose output has another shape: the texts differ. *)
Lemma X2_lines_agree_iff_shapes_agree_witness :
  ∃ x t_in t_out,
    heap (absorb (absorb (batch flat boot).2 (batch flat boot).2)
            (absorb (batch flat boot).2 (batch flat boot).2))
      !! (batch flat boot).1 = Some x ∧
    ops (run flat example boot) !! 4 = Some (Print ["input  shape :"; t_in]) ∧
    ops (run flat example boot) !! 6 = Some (Print ["output shape:"; t_out]) ∧
    (t_in = t_out ↔ shape x = [1]).
Proof.
  refine (X2_lines_agree_iff_shapes_agree flat boot 1%positive
    (batch flat boot).2 {| shape := [1]; data := [0%Z] |}
    (absorb (batch flat boot).2 (batch flat boot).2) _ _); reflexivity.
Defined.

(** ** How the script uses the model *)

(** X3: in every run the class is instantiated exactly once and the
    forward computation is called at most once; the object that is called
    is the instance the constructor returned; and when the constructor
    raises, nothing is called. *)
Theorem X3_one_model_one_call {scalar gen} (E : Env scalar gen)
    (w : World scalar gen) :
  length (List.filter is_new (ops (run E example w))) = 1 ∧
  (length (List.filter is_call (ops (run E example w))) ≤ 1)%nat ∧
  (∀ f args res, (Call f args, res) ∈ trace (run E example w) →
     ∃ w2, construct E "Autoencoder" [] (batch E w).2 = (Ok f, w2)) ∧
  (∀ e, (New "Autoencoder" [], Some e) ∈ trace (run E example w) →
     ∀ o, o ∈ ops (run E example w) → is_call o = false).
Proof.
  split; [|split; [|split]].
  - by_ending E w; reflexivity.
  - by_ending E w; unfold ops; cbn; lia.
  - intros f args res.
    by_ending E w; intros Hin; in_cases Hin; try discriminate Hin;
      injection Hin as -> _; by eexists.
  - intros e0.
    by_ending E w; intros Hin; in_cases Hin; try discriminate Hin.
    intros o Ho. unfold ops in Ho. cbn [trace fmap list_fmap fst] in Ho.
    in_cases Ho; by subst o.
Qed.

(** X3, on a class whose constructor raises and on a model that
    returns. *)
Lemma X3_one_model_one_call_witness :
  is_call (New "Autoencoder" []) = false ∧
  ∃ w2, construct flat "Autoencoder" [] (batch flat boot).2 =
          (Ok 1%positive, w2).
Proof.
  split.
  - refine (proj2 (proj2 (proj2 (X3_one_model_one_call broken_init boot)))
             (PyError "RuntimeError" "init") _ _ _);
      apply list_elem_of_In; vm_compute; right; by left.
  - refine (proj1 (proj2 (proj2 (X3_one_model_one_call flat boot)))
             1%positive [(batch flat boot).1] None _).
    apply list_elem_of_In. vm_compute. do 2 right. by left.
Defined.

(** X4: the input shape is read after the forward call, from the store
    the call left.  When the model has rewritten the batch in place, the
    input line shows the shape it rewrote, not the shape line 12 gave. *)
Theorem X4_input_shape_read_after_call {scalar gen} (E : Env scalar gen)
    (w : World scalar gen) m w2 y w3 x' :
  construct E "Autoencoder" [] (batch E w).2 = (Ok m, w2) →
  invoke E m [(batch E w).1] (absorb (batch E w).2 w2) = (Ok y, w3) →
  heap w3 !! (batch E w).1 = Some x' →
  ops (run E example w) !! 4 = Some (Print (input_line (shape x'))).
Proof.
  intros Hm Hy Hx'. by_ending E w; rewrite Hm in Hc; try discriminate Hc;
    injection Hc as -> ->; rewrite Hy in Hi; try discriminate Hi.
  injection Hi as <- <-.
  assert (x = x') as ->; [|done].
  unfold absorb in Hx; cbn [heap] in Hx.
  rewrite (lookup_union_Some_l _ _ _ _ Hx') in Hx. congruence.
Qed.

(** X4, on a model that empties its argument in place: the input line
    shows one axis of no element. *)
Lemma X4_input_shape_read_after_call_witness :
  ops (run emptying example boot) !! 4 = Some (Print (input_line [0])).
Proof.
  refine (X4_input_shape_read_after_call emptying boot 1%positive
    (batch emptying boot).2 {| shape := [1]; data := [0%Z] |}
    (invoke emptying 1%positive [(batch emptying boot).1]
       (absorb (batch emptying boot).2 (batch emptying boot).2)).2
    {| shape := [0]; data := [] |} _ _ _);
    [reflexivity|reflexivity|by vm_compute].
Defined.
